(** * Simian: Apple SUS shared functions

    A shallow embedding of [simian/mac/common/applesus.py] and the
    properties of its three parts: the auto-promotion scheduler
    ([GetAutoPromoteDate], [_GetNextWeekdayDate]), the dist-file parser
    ([DistFileDocument]) and the catalog generator
    ([GenerateAppleSUSCatalog], [GenerateAppleSUSCatalogs]). *)

From Stdlib Require Import ZArith Lia Ascii String.
From stdpp Require Import base option list strings gmap fin_maps.
From Equations Require Import Equations.
From Equations.Prop Require Import Logic.

Local Open Scope string_scope.
Local Open Scope Z_scope.
Set Warnings "-register-all".

(** ** Python values shared by the whole module *)

(** The exceptions the module raises itself or lets escape from the
    interpreter and the standard library. *)
Inductive exn : Type :=
| ValueError (msg : string)
| DocumentFormatError (msg : string)
| ExpatError (msg : string)
| NameError (name : string)
| IndexError
| KeyError (key : string)
| AttributeError (name : string)
| TaskAlreadyExistsError
| OverflowError
| TypeError.

(** A call either returns a value or raises. *)
Inductive result (A : Type) : Type :=
| Return (a : A)
| Raise (e : exn).
Arguments Return {A} a.
Arguments Raise {A} e.

#[global] Instance result_ret : MRet result := fun A a => Return a.
#[global] Instance result_bind : MBind result := fun A B f r =>
  match r with
  | Return a => f a
  | Raise e => Raise e
  end.

(** ** [datetime.date], [datetime.timedelta], [datetime.datetime]

    A [date] is its proleptic Gregorian ordinal ([date.toordinal()]):
    day 1 is 0001-01-01, a Monday, and [date.max], 9999-12-31, is day
    3652059.  Only what the module calls is modelled: [weekday()],
    [timedelta(days)], [date + timedelta] and [datetime.date()].  A sum that
    leaves the range of the type raises [OverflowError]. *)
Module Date.

Record date : Type := fromordinal { toordinal : Z }.

Record timedelta : Type := Timedelta { days : Z }.

Record datetime : Type := Datetime { date_of : date; seconds_of_day : Z }.

(** [date.max.toordinal()] *)
Definition MAXORDINAL : Z := 3652059.

(** The dates a [datetime.date] object can hold. *)
Definition valid (d : date) : Prop := 1 ≤ toordinal d ≤ MAXORDINAL.

(** [date.weekday()]: Monday is 0 and Sunday is 6. *)
Definition weekday (d : date) : Z := (toordinal d + 6) mod 7.

(** [datetime.timedelta(days)]: at most 999999999 days either way. *)
Definition timedelta_of_days (n : Z) : result timedelta :=
  if (-999999999 <=? n) && (n <=? 999999999)
  then Return (Timedelta n) else Raise OverflowError.

(** [date + timedelta] *)
Definition add (d : date) (t : timedelta) : result date :=
  let o := toordinal d + days t in
  if (1 <=? o) && (o <=? MAXORDINAL)
  then Return (fromordinal o) else Raise OverflowError.

Definition le (d1 d2 : date) : Prop := toordinal d1 ≤ toordinal d2.

(** The day [n] days after [d] on the unbounded day line, for stating
    what the checked sum returns. *)
Definition shift (d : date) (n : Z) : date := fromordinal (toordinal d + n).

(** [datetime.date(year, month, day)], after [datetime._ymd2ord]. *)
Definition is_leap (y : Z) : bool :=
  (y mod 4 =? 0) && (negb (y mod 100 =? 0) || (y mod 400 =? 0)).

Definition days_before_year (y : Z) : Z :=
  let y := y - 1 in y * 365 + y / 4 - y / 100 + y / 400.

Definition days_in_month (y m : Z) : Z :=
  if m =? 2 then (if is_leap y then 29 else 28)
  else if (m =? 4) || (m =? 6) || (m =? 9) || (m =? 11) then 30 else 31.

Definition days_before_month (y m : Z) : Z :=
  foldr (fun k acc => days_in_month y k + acc) 0
        (seqZ 1 (m - 1)).

Definition ymd (y m d : Z) : date :=
  fromordinal (days_before_year y + days_before_month y m + d).

End Date.
Import Date.

Notation "d +d t" := (Date.add d t) (at level 50, left associativity).

Definition MON : Z := 0.
Definition TUE : Z := 1.
Definition WED : Z := 2.
Definition THU : Z := 3.
Definition FRI : Z := 4.
Definition SAT : Z := 5.
Definition SUN : Z := 6.

(** ** [simian.mac.common]: the track names *)

(** Modelled from the spec: the constants [UNSTABLE], [TESTING], [STABLE]
    and [TRACKS] of [simian.mac.common], which is not part of the sources
    at hand.  The tracks are the ordered set unstable, testing, stable. *)
Module common.
Definition UNSTABLE : string := "unstable".
Definition TESTING : string := "testing".
Definition STABLE : string := "stable".
Definition TRACKS : list string := [UNSTABLE; TESTING; STABLE].
End common.

(** ** [models.AppleSUSProduct]: the fields the module reads *)
Record AppleSUSProduct : Type := {
  product_id : string;
  tracks : list string;
  manual_override : bool;
  mtime : datetime;
}.

(** ** The auto-promotion scheduler *)

Definition OS_VERSIONS : list string := ["10.5"; "10.6"; "10.7"].

Definition AUTO_PROMOTE_PHASE_DAYS_MAP : gmap string Z :=
  {[ common.TESTING := 4; common.STABLE := 7 ]}.

Section Scheduler.

(** [datetime.datetime.utcnow()], read once by a call. *)
Variable utcnow : datetime.

(** [_GetNextWeekdayDate(weekday=WED, min_date=None)] *)
Definition _GetNextWeekdayDate (weekday : Z) (min_date : option date) : result date :=
  let min_date :=
    match min_date with
    | None => date_of utcnow
    | Some d => d
    end in
  let next_date := min_date in
  if Date.weekday min_date >? weekday
  then delta ← Date.timedelta_of_days (7 - Date.weekday min_date + weekday);
       next_date +d delta
  else delta ← Date.timedelta_of_days (weekday - Date.weekday min_date);
       next_date +d delta.

(** The recursive call of [GetAutoPromoteDate] is made for 'testing' from
    a call whose track is not [common.TESTING]. *)
Definition track_depth (track : string) : nat :=
  if bool_decide (track = common.TESTING) then 0%nat else 1%nat.

Equations? GetAutoPromoteDate (track : string) (applesus_product : AppleSUSProduct)
  : result (option date) by wf (track_depth track) lt :=
GetAutoPromoteDate track applesus_product with manual_override applesus_product := {
  | true := Return None
  | false with bool_decide (common.UNSTABLE ∈ tracks applesus_product) := {
    | false := Return None
    | true with AUTO_PROMOTE_PHASE_DAYS_MAP !! track := {
      | None := Raise (ValueError ("Invalid track was specified: " +:+ track))
      | Some days_ with bool_decide (days_ = 0) := {
        | true := Raise (ValueError ("Invalid track was specified: " +:+ track))
        | false with inspect (bool_decide (track = common.TESTING)) := {
          | exist _ true _ :=
              auto_promote_offset ← Date.timedelta_of_days days_;
              let previous_track_date := date_of (mtime applesus_product) in
              auto_promote_date ← previous_track_date +d auto_promote_offset;
              if Date.weekday auto_promote_date >=? SAT
              then auto_promote_date ← _GetNextWeekdayDate MON (Some auto_promote_date);
                   Return (Some auto_promote_date)
              else Return (Some auto_promote_date)
          | exist _ false Hne :=
              auto_promote_offset ← Date.timedelta_of_days days_;
              previous_track_date ←
                (if bool_decide (common.TESTING ∈ tracks applesus_product)
                 then Return (Some (date_of (mtime applesus_product)))
                 else GetAutoPromoteDate "testing" applesus_product);
              min_auto_promote_date ←
                match previous_track_date with
                | Some previous_track_date => previous_track_date +d auto_promote_offset
                | None => Raise TypeError
                end;
              auto_promote_date ← _GetNextWeekdayDate WED (Some min_auto_promote_date);
              Return (Some auto_promote_date)
          }
        }
      }
    }
  }.
Proof.
  unfold track_depth. rewrite Hne. simpl. lia.
Qed.

End Scheduler.

(** [r] is the earliest date on or after [min_date] whose weekday is
    [wd]. *)
Definition earliest_on_or_after (wd : Z) (min_date r : date) : Prop :=
  Date.weekday r = wd ∧ Date.le min_date r ∧
  ∀ d, Date.le min_date d → Date.weekday d = wd → Date.le r d.

(** The dates the scheduler computes, on the unbounded day line: the day
    of the weekday [wd] that [_GetNextWeekdayDate] moves to, the 'testing'
    day of a product, four days after [mtime] and moved to Monday from a
    weekend, and its 'stable' day. *)
Definition next_weekday_day (wd : Z) (min_date : date) : date :=
  if Date.weekday min_date >? wd
  then Date.shift min_date (7 - Date.weekday min_date + wd)
  else Date.shift min_date (wd - Date.weekday min_date).

Definition testing_day (p : AppleSUSProduct) : date :=
  let candidate := Date.shift (date_of (mtime p)) 4 in
  if Date.weekday candidate >=? SAT then next_weekday_day MON candidate else candidate.

Definition stable_day (p : AppleSUSProduct) : date :=
  let previous_track_date :=
    if bool_decide (common.TESTING ∈ tracks p) then date_of (mtime p) else testing_day p in
  next_weekday_day WED (Date.shift previous_track_date 7).

(** ** Python objects held in match groups, DOM node values and dicts *)
Inductive pyobj : Type :=
| PyNone
| PyStr (s : string).

#[global] Instance pyobj_eq_dec : EqDecision pyobj.
Proof. solve_decision. Defined.

(** Truth value of an object in a condition: [None] and the empty string
    are false. *)
Definition truthy (o : pyobj) : bool :=
  match o with
  | PyNone => false
  | PyStr s => negb (bool_decide (s = EmptyString))
  end.

(** ** [re]: the part of the regular-expression engine [kv_split] needs

    Patterns are matched by backtracking, first alternative and, for a
    repeat, longest (greedy) or shortest (lazy) count first, as the
    standard library does. *)
Module re.

Definition newline : ascii := "010"%char.

(** [\w] without LOCALE or UNICODE: ASCII letters, digits, underscore. *)
Definition is_word (c : ascii) : bool :=
  let n := N_of_ascii c in
  ((48 <=? n) && (n <=? 57) || (65 <=? n) && (n <=? 90) ||
   (97 <=? n) && (n <=? 122) || (n =? 95))%N.

(** [\s] without LOCALE or UNICODE: space, \t, \n, \v, \f, \r. *)
Definition is_space (c : ascii) : bool :=
  let n := N_of_ascii c in ((n =? 32) || (9 <=? n) && (n <=? 13))%N.

Inductive pattern : Type :=
| Literal (c : ascii)                        (* one given character *)
| In (set : ascii → bool)                    (* [...] : one character of a set *)
| AtBeginningLine                            (* ^ under MULTILINE *)
| AtEndLine                                  (* $ under MULTILINE *)
| MaxRepeat (min : nat) (set : ascii → bool) (* greedy  * (min 0) and + (min 1) *)
| MinRepeat (min : nat) (set : ascii → bool) (* lazy   *? (min 0) *)
| Subpattern (group : nat) (p : pattern)     (* ( ... ) *)
| GroupRef (group : nat)                     (* \N outside a set *)
| Sequence (p1 p2 : pattern)
| Branch (p1 p2 : pattern).                  (* p1|p2 *)

(** The position of a match attempt: the character before the cursor
    (none at the beginning of the string), the text from the cursor on
    and the groups set so far. *)
Record cursor : Type := Cursor {
  before : option ascii;
  rest : string;
  groups : gmap nat string;
}.

Definition advance (cur : cursor) (prev : option ascii) (tail : string) : cursor :=
  {| before := prev; rest := tail; groups := groups cur |}.

Definition at_beginning_line (cur : cursor) : bool :=
  match before cur with
  | None => true
  | Some c => bool_decide (c = newline)
  end.

Definition at_end_line (cur : cursor) : bool :=
  match rest cur with
  | EmptyString => true
  | String c _ => bool_decide (c = newline)
  end.

Section Matching.

Context {R : Type}.

(** Greedy repeat of a one-character set: consume as many characters
    as possible, give one back at a time while the continuation
    fails. *)
Fixpoint max_repeat (set : ascii → bool) (min : nat)
    (prev : option ascii) (text : string)
    (k : option ascii → string → option R) : option R :=
  let stop := match min with O => k prev text | S _ => None end in
  match text with
  | String c tail =>
      if set c then
        match max_repeat set (pred min) (Some c) tail k with
        | Some r => Some r
        | None => stop
        end
      else stop
  | EmptyString => stop
  end.

(** Lazy repeat: try the continuation first, consume one more
    character only when it fails. *)
Fixpoint min_repeat (set : ascii → bool) (min : nat)
    (prev : option ascii) (text : string)
    (k : option ascii → string → option R) : option R :=
  match (match min with O => k prev text | S _ => None end) with
  | Some r => Some r
  | None =>
      match text with
      | String c tail =>
          if set c then min_repeat set (pred min) (Some c) tail k else None
      | EmptyString => None
      end
  end.

(** [strip_prefix g text]: the text after a leading copy of [g], and
    the last character of that copy. *)
Fixpoint strip_prefix (g : string) (prev : option ascii) (text : string)
    : option (option ascii * string) :=
  match g with
  | EmptyString => Some (prev, text)
  | String c g' =>
      match text with
      | String c' tail =>
          if bool_decide (c = c') then strip_prefix g' (Some c') tail else None
      | EmptyString => None
      end
  end.

(** The text consumed between two cursors of one attempt. *)
Definition consumed (start stop : cursor) : string :=
  substring 0 (String.length (rest start) - String.length (rest stop)) (rest start).

Fixpoint match_at (p : pattern) (cur : cursor) (k : cursor → option R) : option R :=
  match p with
  | Literal c =>
      match rest cur with
      | String c' tail => if bool_decide (c = c') then k (advance cur (Some c') tail) else None
      | EmptyString => None
      end
  | In set =>
      match rest cur with
      | String c' tail => if set c' then k (advance cur (Some c') tail) else None
      | EmptyString => None
      end
  | AtBeginningLine => if at_beginning_line cur then k cur else None
  | AtEndLine => if at_end_line cur then k cur else None
  | MaxRepeat min set =>
      max_repeat set min (before cur) (rest cur) (fun prev tail => k (advance cur prev tail))
  | MinRepeat min set =>
      min_repeat set min (before cur) (rest cur) (fun prev tail => k (advance cur prev tail))
  | Subpattern n q =>
      match_at q cur (fun stop =>
        k {| before := before stop; rest := rest stop;
             groups := <[n := consumed cur stop]> (groups stop) |})
  | GroupRef n =>
      match groups cur !! n with
      | None => None
      | Some g =>
          match strip_prefix g (before cur) (rest cur) with
          | Some (prev, tail) => k (advance cur prev tail)
          | None => None
          end
      end
  | Sequence p1 p2 => match_at p1 cur (fun mid => match_at p2 mid k)
  | Branch p1 p2 =>
      match match_at p1 cur k with
      | Some r => Some r
      | None => match_at p2 cur k
      end
  end.

End Matching.

(** A match object: the matched text and the groups that took part. *)
Record MatchObject : Type := Match {
  group0 : string;
  matched_groups : gmap nat string;
}.

(** [m.group(n)] for [n] ≥ 1: [None] for a group that did not take part. *)
Definition group (m : MatchObject) (n : nat) : pyobj :=
  match matched_groups m !! n with
  | Some s => PyStr s
  | None => PyNone
  end.

(** One attempt with the cursor at the start of [text]. *)
Definition match_here (p : pattern) (prev : option ascii) (text : string)
    : option MatchObject :=
  let start := {| before := prev; rest := text; groups := ∅ |} in
  match_at p start (fun stop => Some (Match (consumed start stop) (groups stop))).

(** [re.finditer]: the non-overlapping matches from left to right.  After
    a match the scan resumes where the match ended, or one character
    further after an empty match; [skip] counts the characters of the
    last match still to be passed. *)
Fixpoint scan (p : pattern) (prev : option ascii) (text : string) (skip : nat)
    : list MatchObject :=
  match skip with
  | S n =>
      match text with
      | String c tail => scan p (Some c) tail n
      | EmptyString => []
      end
  | O =>
      match match_here p prev text with
      | Some m =>
          m :: match text with
               | String c tail => scan p (Some c) tail (pred (String.length (group0 m)))
               | EmptyString => []
               end
      | None =>
          match text with
          | String c tail => scan p (Some c) tail 0
          | EmptyString => []
          end
      end
  end.

Definition finditer (p : pattern) (text : string) : list MatchObject :=
  scan p None text 0.

End re.

Infix ">>" := re.Sequence (at level 65, right associativity).

(** ** What a pattern may match

    [spans p cur stop]: the pattern [p] matches the text between the
    cursors [cur] and [stop], setting the groups of [stop].  The relation
    says which matches exist; the order in which [re.match_at] tries them
    is not part of it. *)
Fixpoint every (set : ascii → bool) (s : string) : bool :=
  match s with
  | EmptyString => true
  | String c more => set c && every set more
  end.

Fixpoint last_char (prev : option ascii) (s : string) : option ascii :=
  match s with
  | EmptyString => prev
  | String c more => last_char (Some c) more
  end.

Definition passes (cur : re.cursor) (chunk : string) (stop : re.cursor) : Prop :=
  re.rest cur = chunk +:+ re.rest stop ∧
  re.before stop = last_char (re.before cur) chunk ∧
  re.groups stop = re.groups cur.

Fixpoint spans (p : re.pattern) (cur stop : re.cursor) : Prop :=
  match p with
  | re.Literal c => passes cur (String c EmptyString) stop
  | re.In set => ∃ c, set c = true ∧ passes cur (String c EmptyString) stop
  | re.AtBeginningLine => re.at_beginning_line cur = true ∧ stop = cur
  | re.AtEndLine => re.at_end_line cur = true ∧ stop = cur
  | re.MaxRepeat min set | re.MinRepeat min set =>
      ∃ chunk, (min ≤ String.length chunk)%nat ∧ every set chunk = true ∧
               passes cur chunk stop
  | re.Subpattern n q =>
      ∃ inner, spans q cur inner ∧
               stop = {| re.before := re.before inner; re.rest := re.rest inner;
                         re.groups := <[n := re.consumed cur inner]> (re.groups inner) |}
  | re.GroupRef n => ∃ g, re.groups cur !! n = Some g ∧ passes cur g stop
  | re.Sequence p1 p2 => ∃ mid, spans p1 cur mid ∧ spans p2 mid stop
  | re.Branch p1 p2 => spans p1 cur stop ∨ spans p2 cur stop
  end.

(** ** [xml.dom.minidom]: the nodes [LoadDocument] walks *)
Module minidom.

Inductive Node : Type :=
| Element (tagName : string) (children : list Node)
| Text (data : string)
| CDATASection (data : string)
| Comment (data : string)
| ProcessingInstruction (target data : string).

(** A document node; [DocumentType] children carry no elements and are
    left out. *)
Record Document : Type := { documentNodes : list Node }.

Definition childNodes (n : Node) : list Node :=
  match n with
  | Element _ children => children
  | _ => []
  end.

(** [node.nodeValue]: the data of character-data nodes, [None] for an
    element. *)
Definition nodeValue (n : Node) : pyobj :=
  match n with
  | Element _ _ => PyNone
  | Text data | CDATASection data | Comment data => PyStr data
  | ProcessingInstruction _ data => PyStr data
  end.

(** [_get_elements_by_tagName_helper]: the elements below a node with
    the given tag name, in document order. *)
Fixpoint elements_below (name : string) (n : Node) : list Node :=
  match n with
  | Element tagName children =>
      ((if bool_decide (name = "*") || bool_decide (tagName = name) then [n] else [])
       ++ (fix below (l : list Node) : list Node :=
             match l with
             | [] => []
             | c :: l' => elements_below name c ++ below l'
             end) children)%list
  | _ => []
  end.

Definition getElementsByTagName (doc : Document) (name : string) : list Node :=
  concat (map (elements_below name) (documentNodes doc)).

End minidom.

(** ** The names bound in the module's global namespace

    By its [import] statements, assignments, classes and functions, in
    source order.  [from xml.dom import minidom] binds [minidom] only. *)
Definition module_globals : list string :=
  [ "datetime"; "logging"; "re"; "minidom"; "taskqueue"; "deferred";
    "common"; "models"; "plist";
    "OS_VERSIONS"; "AUTO_PROMOTE_PHASE_DAYS_MAP";
    "MON"; "TUE"; "WED"; "THU"; "FRI"; "SAT"; "SUN";
    "Error"; "DocumentFormatError"; "DistFileDocument";
    "GenerateAppleSUSCatalogs"; "GenerateAppleSUSCatalog"; "ParseDist";
    "GetAutoPromoteDate"; "_GetNextWeekdayDate" ].

(** Reading a global name that is neither bound in the module nor a
    builtin raises [NameError]. *)
Definition load_global (name : string) : result unit :=
  if bool_decide (name ∈ module_globals) then Return ()
  else Raise (NameError name).

(** [seq[0]] *)
Definition first_item {A} (l : list A) : result A :=
  match l with
  | x :: _ => Return x
  | [] => Raise IndexError
  end.

(** [sep.join(items)]: every item has to be a string. *)
Fixpoint str_join (sep : string) (items : list pyobj) : result string :=
  match items with
  | [] => Return EmptyString
  | PyNone :: _ => Raise TypeError
  | PyStr s :: [] => Return s
  | PyStr s :: more => tail ← str_join sep more; Return (s +:+ sep +:+ tail)
  end.

(** ** [class DistFileDocument] *)
Module DistFileDocument.

Record t : Type := { _installer_script : gmap string pyobj }.

Definition Reset (self : t) : t := {| _installer_script := ∅ |}.

Definition __init__ : t := Reset {| _installer_script := ∅ |}.

Definition double_quote : ascii := "034"%char.
Definition single_quote : ascii := "039"%char.

(** The compiled [kv_split].  The second half of the pattern is not a
    raw string literal, so the expression handed to [re.compile] is,
    with Q for the double-quote character and q for the single one,
      (?:^//[^\n]*$)|(?:^Q(\w+)Q\s*=\s*([Qq])([^\2]*?)\2;$)
    Inside the set, \2 is the octal escape for the character with code
    2; outside it, \2 refers to group 2. *)
Definition kv_split : re.pattern :=
  re.Branch
    (re.AtBeginningLine >> re.Literal "/" >> re.Literal "/" >>
     re.MaxRepeat 0 (fun c => negb (bool_decide (c = re.newline))) >>
     re.AtEndLine)
    (re.AtBeginningLine >> re.Literal double_quote >>
     re.Subpattern 1 (re.MaxRepeat 1 re.is_word) >>
     re.Literal double_quote >>
     re.MaxRepeat 0 re.is_space >> re.Literal "=" >> re.MaxRepeat 0 re.is_space >>
     re.Subpattern 2
       (re.In (fun c => bool_decide (c = double_quote) || bool_decide (c = single_quote))) >>
     re.Subpattern 3 (re.MinRepeat 0 (fun c => negb (bool_decide (c = "002"%char)))) >>
     re.GroupRef 2 >> re.Literal ";" >> re.AtEndLine).

(** One turn of the loop over the matches. *)
Definition record_match (installer_script : gmap string pyobj) (i : re.MatchObject)
    : gmap string pyobj :=
  if truthy (re.group i 1) then
    match re.group i 1 with
    | PyStr key => <[key := re.group i 3]> installer_script
    | PyNone => installer_script
    end
  else installer_script.

Definition _ParseInstallerScriptString (istr : string) : gmap string pyobj :=
  foldl record_match ∅ (re.finditer kv_split istr).

(** [LoadDocument(distfile_xml)].  [parsed] is what the standard
    library's [minidom.parseString(distfile_xml)] did: it returned a
    document, or raised [ExpatError] on text that is not well-formed. *)
Definition LoadDocument (self : t) (parsed : result minidom.Document) : result t :=
  p ← match parsed with
      | Return p => Return p
      | Raise e =>
          (* except xml.parsers.expat.ExpatError, e: *)
          _ ← load_global "xml";
          match e with
          | ExpatError msg => Raise (DocumentFormatError msg)
          | _ => Raise e
          end
      end;
  cdata ← match
            l ← first_item (minidom.getElementsByTagName p "localization");
            s ← first_item (minidom.getElementsByTagName p "strings");
            str_join EmptyString (map minidom.nodeValue (minidom.childNodes s))
          with
          | Raise IndexError => Raise (DocumentFormatError EmptyString)
          | outcome => outcome
          end;
  Return {| _installer_script := _ParseInstallerScriptString cdata |}.

Definition GetInstallerScript (self : t) : gmap string pyobj := _installer_script self.

End DistFileDocument.

(** [dict.get(key)] *)
Definition dict_get (d : gmap string pyobj) (key : string) : pyobj :=
  default PyNone (d !! key).

(** [ParseDist(dist_str)], on the outcome of parsing [dist_str]. *)
Definition ParseDist (parsed : result minidom.Document) : result (gmap string pyobj) :=
  dfd ← DistFileDocument.LoadDocument DistFileDocument.__init__ parsed;
  let isd := DistFileDocument.GetInstallerScript dfd in
  Return {[ "title" := dict_get isd "SU_TITLE";
            "version" := (if truthy (dict_get isd "SU_VERS")
                          then dict_get isd "SU_VERS" else dict_get isd "SU_VERSION");
            "servercomment" := dict_get isd "SU_SERVERCOMMENT";
            "description" := dict_get isd "SU_DESCRIPTION" ]}.

(** ** [plist.ApplePlist] and the App Engine services *)

(** Modelled from the spec: the document behind a [plist.ApplePlist]
    ([simian.mac.munki.plist] is not part of the sources at hand).  A
    catalog is a structured document, a mapping holding the product list
    under 'Products' next to arbitrary other content; [Parse] and [GetXml]
    are taken to be inverse to each other, so that a catalog entity holds
    the parsed document itself. *)
Inductive plist_value : Type :=
| PlistString (s : string)
| PlistInteger (n : Z)
| PlistBool (b : bool)
| PlistArray (items : list plist_value)
| PlistDict (entries : gmap string plist_value).

Abbreviation ApplePlist := (gmap string plist_value).

(** The datastore kinds the module reads and writes, the push queue behind
    [deferred.defer] and the number of times the clock has been read. *)
Record AppEngine : Type := {
  AppleSUSProduct_all : list AppleSUSProduct;
  AppleSUSCatalog_by_key_name : gmap string ApplePlist;
  taskqueue : list (string * (string * string));
  utcnow_reads : nat;
}.

(** [untouched_catalog_plist.get('Products', {}).keys()] *)
Definition product_keys (untouched_catalog_plist : ApplePlist) : result (list string) :=
  match default (PlistDict ∅) (untouched_catalog_plist !! "Products") with
  | PlistDict products => Return (map fst (map_to_list products))
  | _ => Raise (AttributeError "keys")
  end.

(** [del new_plist['Products'][product_id]] *)
Definition del_product (product_id : string) (new_plist : ApplePlist) : result ApplePlist :=
  match new_plist !! "Products" with
  | None => Raise (KeyError "Products")
  | Some (PlistDict products) =>
      match products !! product_id with
      | None => Raise (KeyError product_id)
      | Some _ => Return (<["Products" := PlistDict (delete product_id products)]> new_plist)
      end
  | Some _ => Raise TypeError
  end.

(** The loop over [product_ids]; [new_plist] is the document being
    edited in place. *)
Fixpoint remove_unapproved (approved_product_ids : gmap string bool)
    (product_ids : list string) (new_plist : ApplePlist) : result ApplePlist :=
  match product_ids with
  | [] => Return new_plist
  | product_id :: more =>
      new_plist ← match approved_product_ids !! product_id with
                  | None => del_product product_id new_plist
                  | Some _ => Return new_plist
                  end;
      remove_unapproved approved_product_ids more new_plist
  end.

(** The identifiers in the product list of a document. *)
Definition product_ids (document : ApplePlist) : gset string :=
  match document !! "Products" with
  | Some (PlistDict products) => dom products
  | _ => ∅
  end.

(** A catalog has a mapping under 'Products', or no product list. *)
Definition is_catalog (document : ApplePlist) : Prop :=
  match document !! "Products" with
  | Some (PlistDict _) | None => True
  | Some _ => False
  end.

(** The filtering step of [GenerateAppleSUSCatalog]. *)
Definition filter_catalog (approved_product_ids : gmap string bool)
    (untouched_catalog_plist : ApplePlist) : result ApplePlist :=
  product_ids ← product_keys untouched_catalog_plist;
  remove_unapproved approved_product_ids product_ids untouched_catalog_plist.

(** [re.sub(r'[^\w-]', '', name)] *)
Fixpoint sanitize (name : string) : string :=
  match name with
  | EmptyString => EmptyString
  | String c more =>
      if re.is_word c || bool_decide (c = "-"%char)
      then String c (sanitize more) else sanitize more
  end.

Section Catalogs.

(** [utcnow().strftime('%Y-%m-%d-%H-%M-%S')] at the n-th reading of the
    clock. *)
Variable now_str : nat → string.

Definition put_catalog (key_name : string) (plist_xml : ApplePlist) (gae : AppEngine)
    : AppEngine :=
  {| AppleSUSProduct_all := AppleSUSProduct_all gae;
     AppleSUSCatalog_by_key_name := <[key_name := plist_xml]> (AppleSUSCatalog_by_key_name gae);
     taskqueue := taskqueue gae;
     utcnow_reads := utcnow_reads gae |}.

Definition read_clock (gae : AppEngine) : string * AppEngine :=
  (now_str (utcnow_reads gae),
   {| AppleSUSProduct_all := AppleSUSProduct_all gae;
      AppleSUSCatalog_by_key_name := AppleSUSCatalog_by_key_name gae;
      taskqueue := taskqueue gae;
      utcnow_reads := S (utcnow_reads gae) |}).

(** [GenerateAppleSUSCatalog(os_version, track)]: the new state of the
    services and the returned pair, the key name of the catalog written
    and the filtered document. *)
Definition GenerateAppleSUSCatalog (os_version track : string) (gae : AppEngine)
    : result (AppEngine * (string * ApplePlist)) :=
  let products_query :=
    filter (fun product => track ∈ tracks product) (AppleSUSProduct_all gae) in
  let approved_product_ids :=
    foldl (fun approved product => <[product_id product := true]> approved)
          (∅ : gmap string bool) products_query in
  untouched_catalog_plist ←
    match AppleSUSCatalog_by_key_name gae !! (os_version +:+ "_untouched") with
    | Some document => Return document
    | None => Raise (AttributeError "plist")
    end;
  new_plist ← filter_catalog approved_product_ids untouched_catalog_plist;
  let catalog_plist_xml := new_plist in
  let '(now, gae) := read_clock gae in
  let gae := put_catalog ("backup_" +:+ os_version +:+ "_" +:+ track +:+ "_" +:+ now)
                         catalog_plist_xml gae in
  let gae := put_catalog (os_version +:+ "_" +:+ track) catalog_plist_xml gae in
  Return (gae, (os_version +:+ "_" +:+ track, new_plist)).

(** [deferred.defer(GenerateAppleSUSCatalog, os_version, track,
    _name=deferred_name)]: a name already in the queue raises
    [TaskAlreadyExistsError]. *)
Definition defer (os_version track deferred_name : string) (gae : AppEngine)
    : result AppEngine :=
  if bool_decide (deferred_name ∈ map fst (taskqueue gae))
  then Raise TaskAlreadyExistsError
  else Return
    {| AppleSUSProduct_all := AppleSUSProduct_all gae;
       AppleSUSCatalog_by_key_name := AppleSUSCatalog_by_key_name gae;
       taskqueue := (taskqueue gae ++ [(deferred_name, (os_version, track))])%list;
       utcnow_reads := utcnow_reads gae |}.

(** A [for] loop whose body may raise. *)
Fixpoint for_each {A S : Type} (items : list A) (body : A → S → result S) (s : S)
    : result S :=
  match items with
  | [] => Return s
  | x :: more => s ← body x s; for_each more body s
  end.

(** The body of the two nested loops. *)
Definition generate_or_defer (delay : Z) (track os_version : string) (gae : AppEngine)
    : result AppEngine :=
  if negb (bool_decide (delay = 0)) then
    let '(now, gae) := read_clock gae in
    let deferred_name :=
      "gen-applesus-catalog-" +:+ os_version +:+ "-" +:+ track +:+ "-" +:+ now in
    let deferred_name := sanitize deferred_name in
    match defer os_version track deferred_name gae with
    | Raise TaskAlreadyExistsError => Return gae
    | outcome => outcome
    end
  else
    '(gae, _) ← GenerateAppleSUSCatalog os_version track gae; Return gae.

(** Truth value of the [track] and [tracks] arguments: [None], the empty
    string and the empty list are false. *)
Definition track_given (track : option string) : bool :=
  match track with
  | Some s => negb (bool_decide (s = EmptyString))
  | None => false
  end.

Definition tracks_given (tracks : option (list string)) : bool :=
  match tracks with
  | Some (_ :: _) => true
  | _ => false
  end.

(** [GenerateAppleSUSCatalogs(track=None, tracks=None, delay=0)] *)
Definition GenerateAppleSUSCatalogs (track : option string)
    (tracks : option (list string)) (delay : Z) (gae : AppEngine) : result AppEngine :=
  tracks ←
    (if track_given track && tracks_given tracks
     then Raise (ValueError "only one of track and tracks is allowed")
     else if negb (tracks_given tracks) && negb (track_given track)
     then Return common.TRACKS
     else if track_given track
     then Return [default EmptyString track]
     else Return (default [] tracks));
  for_each tracks (fun track =>
    for_each OS_VERSIONS (fun os_version =>
      generate_or_defer delay track os_version)) gae.

(** What a returning run leaves behind for a track and an OS version:
    with a delay, a task under the name derived from both and from some
    reading of the clock; without, the catalog served for the pair. *)
Definition deferral_pending (track os_version : string) (gae : AppEngine) : Prop :=
  ∃ n, sanitize ("gen-applesus-catalog-" +:+ os_version +:+ "-" +:+ track +:+ "-"
                 +:+ now_str n) ∈ map fst (taskqueue gae).

Definition catalog_served (track os_version : string) (gae : AppEngine) : Prop :=
  is_Some (AppleSUSCatalog_by_key_name gae !! (os_version +:+ "_" +:+ track)).

(** Every supported OS version has its untouched catalog. *)
Definition untouched_catalogs_loaded (gae : AppEngine) : Prop :=
  ∀ os_version, os_version ∈ OS_VERSIONS →
    ∃ document, AppleSUSCatalog_by_key_name gae !! (os_version +:+ "_untouched")
                = Some document ∧ is_catalog document.

End Catalogs.

(** ** Sample inputs *)
Module Samples.

(** 2023-06-01, a Thursday, at midnight UTC. *)
Definition thursday : datetime := Datetime (ymd 2023 6 1) 0.

(** 2023-06-07, a Wednesday. *)
Definition wednesday : datetime := Datetime (ymd 2023 6 7) 0.

Definition now : datetime := Datetime (ymd 2023 6 20) 43200.

Definition fresh : AppleSUSProduct :=
  {| product_id := "041-9391"; tracks := ["unstable"];
     manual_override := false; mtime := thursday |}.

Definition fresh_wednesday : AppleSUSProduct :=
  {| product_id := "041-9392"; tracks := ["unstable"];
     manual_override := false; mtime := wednesday |}.

Definition in_testing : AppleSUSProduct :=
  {| product_id := "041-9393"; tracks := ["unstable"; "testing"];
     manual_override := false; mtime := wednesday |}.

Definition overridden : AppleSUSProduct :=
  {| product_id := "041-9394"; tracks := ["unstable"];
     manual_override := true; mtime := thursday |}.

(** 9999-12-30, the day before [date.max]. *)
Definition last_days : AppleSUSProduct :=
  {| product_id := "041-9396"; tracks := ["unstable"];
     manual_override := false; mtime := Datetime (ymd 9999 12 30) 0 |}.

Definition not_entered : AppleSUSProduct :=
  {| product_id := "041-9395"; tracks := ["testing"];
     manual_override := false; mtime := thursday |}.

(** Text regions for the installer-script parser. *)
Definition dq : string := String DistFileDocument.double_quote EmptyString.
Definition nl : string := String re.newline EmptyString.

Definition two_statements : string :=
  dq +:+ "SU_TITLE" +:+ dq +:+ " = " +:+ dq +:+ "Foo" +:+ dq +:+ ";" +:+ nl +:+
  dq +:+ "SU_VERS" +:+ dq +:+ " = 'Bar';".

Definition malformed_line : string := dq +:+ "X" +:+ dq +:+ " = ;".

Definition repeated_key : string :=
  "// the second statement wins" +:+ nl +:+
  dq +:+ "SU_VERS" +:+ dq +:+ " = " +:+ dq +:+ "1.0" +:+ dq +:+ ";" +:+ nl +:+
  dq +:+ "SU_VERS" +:+ dq +:+ " = '1.1';".

(** Dist documents as [minidom.parseString] returns them. *)
Definition dist_with_malformed_line : minidom.Document :=
  {| minidom.documentNodes :=
       [ minidom.Element "installer-gui-script"
           [ minidom.Element "localization"
               [ minidom.Element "strings" [ minidom.Text malformed_line ] ] ] ] |}.

Definition dist_document : minidom.Document :=
  {| minidom.documentNodes :=
       [ minidom.Element "installer-gui-script"
           [ minidom.Element "localization"
               [ minidom.Element "strings" [ minidom.Text two_statements ] ] ] ] |}.

Definition dist_without_localization : minidom.Document :=
  {| minidom.documentNodes :=
       [ minidom.Element "installer-gui-script"
           [ minidom.Element "strings" [ minidom.Text two_statements ] ] ] |}.

Definition dist_without_strings : minidom.Document :=
  {| minidom.documentNodes :=
       [ minidom.Element "installer-gui-script"
           [ minidom.Element "localization" [] ] ] |}.

(** An untouched catalog with three products and the approvals of two
    products, one of them unknown to the catalog. *)
Definition master_catalog : ApplePlist :=
  {[ "CatalogVersion" := PlistInteger 2;
     "IndexDate" := PlistString "2023-06-01T00:00:00Z";
     "Products" :=
       PlistDict {[ "041-9391" := PlistDict {[ "PostDate" := PlistString "2023-05-30" ]};
                    "041-9392" := PlistDict ∅;
                    "041-9393" := PlistDict ∅ ]} ]}.

Definition approvals : gmap string bool :=
  {[ "041-9392" := true; "041-0001" := true ]}.

(** The services with untouched catalogs for every OS version and an
    empty queue. *)
Definition services : AppEngine :=
  {| AppleSUSProduct_all := [fresh; in_testing];
     AppleSUSCatalog_by_key_name :=
       {[ "10.5_untouched" := master_catalog;
          "10.6_untouched" := master_catalog;
          "10.7_untouched" := master_catalog ]};
     taskqueue := [];
     utcnow_reads := 0 |}.

Definition clock (n : nat) : string := "2023-06-20-12-00-00".

End Samples.


(** * Properties *)

(** Closed decidable facts, by evaluation. *)
Ltac decide_by_computation :=
  match goal with
  | |- ¬ ?P => apply (proj1 (bool_decide_eq_false P))
  | |- ?P => apply (proj1 (bool_decide_eq_true P))
  end; vm_compute; reflexivity.

(** Closed comparisons of day numbers, by evaluation. *)
Ltac compare_days :=
  unfold Date.valid, Date.le; vm_compute; repeat split; discriminate.

(** Decide a comparison with [Date.MAXORDINAL] from the facts at hand. *)
Ltac compare_with_max :=
  match goal with
  | |- context [?x <=? Date.MAXORDINAL] =>
      destruct (Z.leb_spec x Date.MAXORDINAL); [try lia|try lia]
  end.

Ltac case_max :=
  match goal with
  | |- context [?x <=? Date.MAXORDINAL] => destruct (x <=? Date.MAXORDINAL)
  end.

(** ** The scheduler *)

Section SchedulerFacts.

Variable utcnow : datetime.

Lemma weekday_range d : 0 ≤ Date.weekday d ≤ 6.
Proof. unfold Date.weekday. pose proof (Z.mod_pos_bound (toordinal d + 6) 7). lia. Qed.

Lemma next_weekday_earliest wd d :
  0 ≤ wd ≤ 6 → earliest_on_or_after wd d (next_weekday_day wd d).
Proof.
  intros Hwd. unfold earliest_on_or_after, next_weekday_day, Date.le, Date.weekday.
  destruct d as [o]; simpl.
  destruct (Z.gtb_spec ((o + 6) mod 7) wd); simpl;
    (repeat split; [| | intros [o'] ; simpl; intros]); Z.div_mod_to_equations; lia.
Qed.

Lemma next_weekday_fixed wd d :
  Date.weekday d = wd → next_weekday_day wd d = d.
Proof.
  intros <-. unfold next_weekday_day. rewrite Z.gtb_ltb, Z.ltb_irrefl.
  destruct d as [o]; unfold Date.shift; simpl. f_equal. lia.
Qed.

Lemma next_weekday_offset wd d :
  0 ≤ wd ≤ 6 →
  toordinal (next_weekday_day wd d) = toordinal d + (wd - Date.weekday d) mod 7.
Proof.
  intros Hwd. unfold next_weekday_day, Date.weekday. destruct d as [o]; simpl.
  destruct (Z.gtb_spec ((o + 6) mod 7) wd); simpl; Z.div_mod_to_equations; lia.
Qed.

(** The checked sum returns the shifted day inside the range of the type
    and raises outside. *)
Lemma add_in_range d n :
  1 ≤ toordinal d + n ≤ Date.MAXORDINAL → d +d Timedelta n = Return (Date.shift d n).
Proof.
  intros Hr. unfold Date.add. simpl.
  destruct (Z.leb_spec 1 (toordinal d + n)); [|lia].
  destruct (Z.leb_spec (toordinal d + n) Date.MAXORDINAL); [done|lia].
Qed.

Lemma add_past_max d n :
  Date.MAXORDINAL < toordinal d + n → d +d Timedelta n = Raise OverflowError.
Proof.
  intros Hr. unfold Date.add. simpl.
  destruct (Z.leb_spec (toordinal d + n) Date.MAXORDINAL); [lia|].
  by rewrite andb_false_r.
Qed.

Lemma timedelta_small n :
  -999999999 ≤ n ≤ 999999999 → Date.timedelta_of_days n = Return (Timedelta n).
Proof.
  intros Hn. unfold Date.timedelta_of_days.
  destruct (Z.leb_spec (-999999999) n); [|lia].
  destruct (Z.leb_spec n 999999999); [done|lia].
Qed.

(** [_GetNextWeekdayDate] on a date of the type and a weekday 0..6. *)
Lemma next_weekday_run wd d :
  0 ≤ wd ≤ 6 → Date.valid d →
  _GetNextWeekdayDate utcnow wd (Some d) =
    if toordinal (next_weekday_day wd d) <=? Date.MAXORDINAL
    then Return (next_weekday_day wd d) else Raise OverflowError.
Proof.
  intros Hwd Hd. pose proof (weekday_range d) as Hw. unfold Date.valid in Hd.
  unfold _GetNextWeekdayDate, next_weekday_day.
  destruct (Z.gtb_spec (Date.weekday d) wd).
  - rewrite timedelta_small by lia. simpl.
    destruct (Z.leb_spec (toordinal d + (7 - Date.weekday d + wd)) Date.MAXORDINAL).
    + by rewrite add_in_range by lia.
    + by rewrite add_past_max by lia.
  - rewrite timedelta_small by lia. simpl.
    destruct (Z.leb_spec (toordinal d + (wd - Date.weekday d)) Date.MAXORDINAL).
    + by rewrite add_in_range by lia.
    + by rewrite add_past_max by lia.
Qed.

Lemma phase_days_testing : AUTO_PROMOTE_PHASE_DAYS_MAP !! common.TESTING = Some 4.
Proof. unfold AUTO_PROMOTE_PHASE_DAYS_MAP. by rewrite lookup_insert_eq. Qed.

Lemma phase_days_stable : AUTO_PROMOTE_PHASE_DAYS_MAP !! common.STABLE = Some 7.
Proof.
  unfold AUTO_PROMOTE_PHASE_DAYS_MAP.
  rewrite lookup_insert_ne by done. by rewrite lookup_singleton_eq.
Qed.

Lemma phase_days_other track :
  track ≠ common.TESTING → track ≠ common.STABLE →
  AUTO_PROMOTE_PHASE_DAYS_MAP !! track = None.
Proof.
  intros Ht Hs. unfold AUTO_PROMOTE_PHASE_DAYS_MAP.
  rewrite lookup_insert_ne by done. by rewrite lookup_singleton_ne.
Qed.

(** The body of [GetAutoPromoteDate], statement by statement. *)
Lemma GetAutoPromoteDate_body track p :
  GetAutoPromoteDate utcnow track p =
    if manual_override p then Return None
    else if negb (bool_decide (common.UNSTABLE ∈ tracks p)) then Return None
    else match AUTO_PROMOTE_PHASE_DAYS_MAP !! track with
         | None => Raise (ValueError ("Invalid track was specified: " +:+ track))
         | Some n =>
             if bool_decide (n = 0)
             then Raise (ValueError ("Invalid track was specified: " +:+ track))
             else if bool_decide (track = common.TESTING)
             then
               auto_promote_offset ← Date.timedelta_of_days n;
               auto_promote_date ← date_of (mtime p) +d auto_promote_offset;
               if Date.weekday auto_promote_date >=? SAT
               then auto_promote_date ← _GetNextWeekdayDate utcnow MON (Some auto_promote_date);
                    Return (Some auto_promote_date)
               else Return (Some auto_promote_date)
             else
               auto_promote_offset ← Date.timedelta_of_days n;
               previous_track_date ←
                 (if bool_decide (common.TESTING ∈ tracks p)
                  then Return (Some (date_of (mtime p)))
                  else GetAutoPromoteDate utcnow "testing" p);
               min_auto_promote_date ←
                 match previous_track_date with
                 | Some previous_track_date => previous_track_date +d auto_promote_offset
                 | None => Raise TypeError
                 end;
               auto_promote_date ← _GetNextWeekdayDate utcnow WED (Some min_auto_promote_date);
               Return (Some auto_promote_date)
         end.
Proof.
  rewrite (GetAutoPromoteDate_unfold_eq utcnow track p).
  unfold GetAutoPromoteDate_unfold.
  destruct (manual_override p); simpl; [done|].
  destruct (bool_decide (common.UNSTABLE ∈ tracks p)); simpl; [|done].
  destruct (AUTO_PROMOTE_PHASE_DAYS_MAP !! track) as [n|]; simpl; [|done].
  destruct (bool_decide (n = 0)); simpl; [done|].
  destruct (bool_decide (track = common.TESTING)); simpl; reflexivity.
Qed.

Lemma guards_return_None track p :
  manual_override p = true ∨ common.UNSTABLE ∉ tracks p →
  GetAutoPromoteDate utcnow track p = Return None.
Proof.
  intros H. rewrite GetAutoPromoteDate_body.
  destruct (manual_override p); [done|].
  destruct H as [H|H]; [done|].
  by rewrite bool_decide_eq_false_2.
Qed.

Lemma eligible_invalid_track track p :
  manual_override p = false → common.UNSTABLE ∈ tracks p →
  track ≠ common.TESTING → track ≠ common.STABLE →
  GetAutoPromoteDate utcnow track p
  = Raise (ValueError ("Invalid track was specified: " +:+ track)).
Proof.
  intros Hm Hu Ht Hs. rewrite GetAutoPromoteDate_body, Hm.
  rewrite bool_decide_eq_true_2 by done. simpl.
  by rewrite phase_days_other.
Qed.

Lemma testing_day_bounds p :
  let m := toordinal (date_of (mtime p)) in
  let t := toordinal (testing_day p) in
  m + 4 ≤ t ≤ m + 6 ∧ 0 ≤ Date.weekday (testing_day p) ≤ 4 ∧
  (t = m + 4 ∨ Date.weekday (testing_day p) = MON).
Proof.
  unfold testing_day. simpl.
  set (c := Date.shift (date_of (mtime p)) 4).
  assert (Hc : toordinal c = toordinal (date_of (mtime p)) + 4) by done.
  destruct (Z.geb_spec (Date.weekday c) SAT) as [Hge|Hlt].
  - pose proof (weekday_range c) as Hr.
    pose proof (next_weekday_offset MON c) as Ho.
    pose proof (next_weekday_earliest MON c) as He.
    destruct He as (Hmon & _ & _); [unfold MON; lia|].
    rewrite Hmon. unfold MON, SAT in *.
    split; [|split; [lia|by right]]. rewrite Ho, Hc by lia.
    clearbody c. Z.div_mod_to_equations; lia.
  - pose proof (weekday_range c).
    unfold SAT in *. rewrite Hc. split; [lia|]. split; [lia|by left].
Qed.

Lemma stable_day_bounds p :
  let m := toordinal (date_of (mtime p)) in
  let s := toordinal (stable_day p) in
  Date.weekday (stable_day p) = WED ∧
  (if bool_decide (common.TESTING ∈ tracks p)
   then m + 7 ≤ s ≤ m + 13
   else m + 11 ≤ s ≤ m + 17 ∧ toordinal (testing_day p) + 7 ≤ s).
Proof.
  simpl. unfold stable_day.
  assert (Hwed : 0 ≤ WED ≤ 6) by (unfold WED; lia).
  split; [by apply next_weekday_earliest|].
  rewrite next_weekday_offset by done.
  destruct (bool_decide (common.TESTING ∈ tracks p)).
  - pose proof (Z.mod_pos_bound (WED - Date.weekday (Date.shift (date_of (mtime p)) 7)) 7
                  ltac:(lia)).
    simpl. lia.
  - pose proof (testing_day_bounds p) as (Hb & Hw & Hc). simpl in Hb, Hc.
    set (t := testing_day p) in *.
    unfold Date.weekday in *. unfold WED, MON in *.
    destruct t as [o]. simpl in *.
    Z.div_mod_to_equations. lia.
Qed.

(** The 'testing' call for a product that passes the guards. *)
Lemma eligible_testing p :
  manual_override p = false → common.UNSTABLE ∈ tracks p →
  Date.valid (date_of (mtime p)) →
  GetAutoPromoteDate utcnow common.TESTING p =
    if toordinal (testing_day p) <=? Date.MAXORDINAL
    then Return (Some (testing_day p)) else Raise OverflowError.
Proof.
  intros Hm Hu Hv. unfold Date.valid in Hv.
  rewrite GetAutoPromoteDate_body, Hm.
  rewrite bool_decide_eq_true_2 by done. simpl.
  rewrite phase_days_testing. simpl.
  pose proof (testing_day_bounds p) as (Hb & _ & _). simpl in Hb.
  unfold testing_day in *.
  set (c := Date.shift (date_of (mtime p)) 4) in *.
  assert (Hc : toordinal c = toordinal (date_of (mtime p)) + 4) by done.
  destruct (Z.leb_spec (toordinal (date_of (mtime p)) + 4) Date.MAXORDINAL) as [Hin|Hout].
  - rewrite add_in_range by lia. simpl. fold c.
    destruct (Date.weekday c >=? SAT).
    + rewrite next_weekday_run by (unfold MON, Date.valid; lia).
      by case_max.
    + by compare_with_max.
  - rewrite add_past_max by lia. simpl.
    destruct (Date.weekday c >=? SAT); by compare_with_max.
Qed.

(** The 'stable' call for a product that passes the guards. *)
Lemma eligible_stable p :
  manual_override p = false → common.UNSTABLE ∈ tracks p →
  Date.valid (date_of (mtime p)) →
  GetAutoPromoteDate utcnow common.STABLE p =
    if toordinal (stable_day p) <=? Date.MAXORDINAL
    then Return (Some (stable_day p)) else Raise OverflowError.
Proof.
  intros Hm Hu Hv.
  pose proof (eligible_testing p Hm Hu Hv) as Ht. unfold Date.valid in Hv.
  rewrite GetAutoPromoteDate_body, Hm.
  rewrite bool_decide_eq_true_2 by done. simpl.
  rewrite phase_days_stable. simpl.
  pose proof (testing_day_bounds p) as (Hb & _ & _). simpl in Hb.
  unfold stable_day in *.
  assert (Hwed : 0 ≤ WED ≤ 6) by (unfold WED; lia).
  destruct (bool_decide (common.TESTING ∈ tracks p)); simpl.
  - pose proof (next_weekday_earliest WED (Date.shift (date_of (mtime p)) 7) Hwed)
      as (_ & Hle & _). unfold Date.le in Hle. simpl in Hle.
    destruct (Z.leb_spec (toordinal (date_of (mtime p)) + 7) Date.MAXORDINAL) as [Hin|Hout].
    + rewrite add_in_range by lia. simpl.
      rewrite next_weekday_run by (unfold Date.valid; simpl; lia).
      by case_max.
    + rewrite add_past_max by lia. simpl. by compare_with_max.
  - change "testing" with common.TESTING. rewrite Ht.
    pose proof (next_weekday_earliest WED (Date.shift (testing_day p) 7) Hwed)
      as (_ & Hle & _). unfold Date.le in Hle. simpl in Hle.
    destruct (Z.leb_spec (toordinal (testing_day p)) Date.MAXORDINAL) as [Hint|Houtt]; simpl.
    + destruct (Z.leb_spec (toordinal (testing_day p) + 7) Date.MAXORDINAL) as [Hin|Hout].
      * rewrite add_in_range by lia. simpl.
        rewrite next_weekday_run by (unfold Date.valid; simpl; lia).
        by case_max.
      * rewrite add_past_max by lia. simpl. by compare_with_max.
    + by compare_with_max.
Qed.

End SchedulerFacts.

Example fresh_testing :
  GetAutoPromoteDate Samples.now "testing" Samples.fresh = Return (Some (ymd 2023 6 5)).
Proof. vm_compute. reflexivity. Qed.

Example fresh_in_unstable : common.UNSTABLE ∈ tracks Samples.fresh.
Proof. decide_by_computation. Qed.

Example not_entered_unstable : common.UNSTABLE ∉ tracks Samples.not_entered.
Proof. decide_by_computation. Qed.

(** C9: when [manual_override] is set, or 'unstable' is not among the
    product's tracks, [GetAutoPromoteDate] returns [None] without raising
    for every track argument, valid or not: both checks come before the
    track is looked up. *)
Theorem guards_precede_track_validation utcnow (track : string) p :
  manual_override p = true ∨ common.UNSTABLE ∉ tracks p →
  GetAutoPromoteDate utcnow track p = Return None.
Proof. apply guards_return_None. Qed.

Lemma guards_precede_track_validation_witness :
  GetAutoPromoteDate Samples.now "unstable" Samples.overridden = Return None ∧
  GetAutoPromoteDate Samples.now "no such track" Samples.not_entered = Return None.
Proof.
  split.
  - apply (guards_precede_track_validation Samples.now "unstable" Samples.overridden).
    left. reflexivity.
  - apply (guards_precede_track_validation Samples.now "no such track" Samples.not_entered).
    right. decide_by_computation.
Defined.

(** C6: for a product with [manual_override] set, and for a product whose
    tracks do not contain 'unstable', [GetAutoPromoteDate] for 'testing' or
    'stable' returns [None], whatever the other fields hold. *)
Theorem no_promotion_date_when_overridden_or_not_entered utcnow track p :
  track = common.TESTING ∨ track = common.STABLE →
  manual_override p = true ∨ common.UNSTABLE ∉ tracks p →
  GetAutoPromoteDate utcnow track p = Return None.
Proof. intros _. apply guards_return_None. Qed.

Lemma no_promotion_date_when_overridden_or_not_entered_witness :
  GetAutoPromoteDate Samples.now "testing" Samples.overridden = Return None ∧
  GetAutoPromoteDate Samples.now "stable" Samples.not_entered = Return None.
Proof.
  split.
  - apply (no_promotion_date_when_overridden_or_not_entered
             Samples.now "testing" Samples.overridden).
    + left. reflexivity.
    + left. reflexivity.
  - apply (no_promotion_date_when_overridden_or_not_entered
             Samples.now "stable" Samples.not_entered).
    + right. reflexivity.
    + right. decide_by_computation.
Defined.

(** C1, as stated, fails: for a product with [manual_override] set the call
    with the track 'unstable' returns [None] and raises nothing. *)
Lemma invalid_track_not_always_rejected :
  GetAutoPromoteDate Samples.now "unstable" Samples.overridden = Return None ∧
  "unstable" ≠ common.TESTING ∧ "unstable" ≠ common.STABLE ∧
  ¬ ∃ msg, GetAutoPromoteDate Samples.now "unstable" Samples.overridden
           = Raise (ValueError msg).
Proof.
  assert (H : GetAutoPromoteDate Samples.now "unstable" Samples.overridden = Return None)
    by (vm_compute; reflexivity).
  split; [exact H|]. split; [discriminate|]. split; [discriminate|].
  intros [msg Hmsg]. rewrite H in Hmsg. discriminate.
Qed.

(** C1, amended: for a product without [manual_override] whose tracks
    contain 'unstable', every track other than 'testing' and 'stable' makes
    [GetAutoPromoteDate] raise [ValueError]. *)
Theorem invalid_track_rejected_for_eligible_product utcnow track p :
  manual_override p = false → common.UNSTABLE ∈ tracks p →
  track ≠ common.TESTING → track ≠ common.STABLE →
  GetAutoPromoteDate utcnow track p
  = Raise (ValueError ("Invalid track was specified: " +:+ track)).
Proof. apply eligible_invalid_track. Qed.

Lemma invalid_track_rejected_for_eligible_product_witness :
  GetAutoPromoteDate Samples.now "unstable" Samples.fresh
  = Raise (ValueError "Invalid track was specified: unstable").
Proof.
  apply (invalid_track_rejected_for_eligible_product Samples.now "unstable" Samples.fresh).
  - reflexivity.
  - decide_by_computation.
  - discriminate.
  - discriminate.
Defined.

Section PromotionDates.

Variable utcnow : datetime.

Lemma testing_day_weekend p :
  let candidate := Date.shift (date_of (mtime p)) 4 in
  Date.weekday candidate = SAT ∨ Date.weekday candidate = SUN →
  earliest_on_or_after MON candidate (testing_day p) ∧ testing_day p ≠ candidate.
Proof.
  intros candidate Hwe. unfold testing_day. fold candidate.
  assert (Hge : (Date.weekday candidate >=? SAT) = true)
    by (rewrite Z.geb_leb; apply Z.leb_le; unfold SAT, SUN in *; lia).
  rewrite Hge.
  pose proof (next_weekday_earliest MON candidate) as He.
  split; [apply He; unfold MON; lia|].
  intros Heq. destruct He as [Hmon _]; [unfold MON; lia|].
  rewrite Heq in Hmon. unfold MON, SAT, SUN in *. lia.
Qed.

Lemma testing_day_weekday p :
  let candidate := Date.shift (date_of (mtime p)) 4 in
  ¬ (Date.weekday candidate = SAT ∨ Date.weekday candidate = SUN) →
  testing_day p = candidate.
Proof.
  intros candidate Hwd. unfold testing_day. fold candidate.
  pose proof (weekday_range candidate).
  assert (Hge : (Date.weekday candidate >=? SAT) = false)
    by (rewrite Z.geb_leb; apply Z.leb_gt; unfold SAT, SUN in *; lia).
  by rewrite Hge.
Qed.

(** With seventeen days to spare before [date.max], both calls return. *)
Lemma testing_returns p :
  manual_override p = false → common.UNSTABLE ∈ tracks p →
  Date.valid (date_of (mtime p)) →
  toordinal (date_of (mtime p)) + 6 ≤ Date.MAXORDINAL →
  GetAutoPromoteDate utcnow common.TESTING p = Return (Some (testing_day p)).
Proof.
  intros Hm Hu Hv Hr. rewrite eligible_testing by done.
  pose proof (testing_day_bounds p) as (Hb & _). simpl in Hb.
  by compare_with_max.
Qed.

Lemma stable_returns p :
  manual_override p = false → common.UNSTABLE ∈ tracks p →
  Date.valid (date_of (mtime p)) →
  toordinal (date_of (mtime p)) + 17 ≤ Date.MAXORDINAL →
  GetAutoPromoteDate utcnow common.STABLE p = Return (Some (stable_day p)).
Proof.
  intros Hm Hu Hv Hr. rewrite eligible_stable by done.
  pose proof (stable_day_bounds p) as (_ & Hb). simpl in Hb.
  destruct (bool_decide (common.TESTING ∈ tracks p)); by compare_with_max.
Qed.

Lemma next_weekday_returns wd d :
  0 ≤ wd ≤ 6 → Date.valid d → toordinal d + 6 ≤ Date.MAXORDINAL →
  _GetNextWeekdayDate utcnow wd (Some d) = Return (next_weekday_day wd d).
Proof.
  intros Hwd Hv Hr. rewrite next_weekday_run by done.
  pose proof (next_weekday_offset wd d Hwd) as Ho.
  pose proof (Z.mod_pos_bound (wd - Date.weekday d) 7 ltac:(lia)).
  by compare_with_max.
Qed.

(** A 'testing' call that passes the guards does not return [None]. *)
Lemma testing_not_None p :
  manual_override p = false → common.UNSTABLE ∈ tracks p →
  GetAutoPromoteDate utcnow common.TESTING p ≠ Return None.
Proof.
  intros Hm Hu. rewrite GetAutoPromoteDate_body, Hm.
  rewrite bool_decide_eq_true_2 by done. simpl.
  rewrite phase_days_testing. simpl.
  destruct (date_of (mtime p) +d Timedelta 4) as [c|e]; simpl; [|done].
  destruct (Date.weekday c >=? SAT); [|done].
  by destruct (_GetNextWeekdayDate utcnow MON (Some c)).
Qed.

End PromotionDates.




(** A product modified on Wednesday 2023-06-07 and still only in 'unstable':
    'testing' on Monday 2023-06-12, hence 'stable' on Wednesday 2023-06-21;
    [mtime] + 7 days is itself a Wednesday, 2023-06-14. *)
Example fresh_wednesday_dates :
  GetAutoPromoteDate Samples.now "testing" Samples.fresh_wednesday
  = Return (Some (ymd 2023 6 12)) ∧
  GetAutoPromoteDate Samples.now "stable" Samples.fresh_wednesday
  = Return (Some (ymd 2023 6 21)) ∧
  next_weekday_day WED (Date.shift (date_of (mtime Samples.fresh_wednesday)) 7)
  = ymd 2023 6 14.
Proof. vm_compute. done. Qed.




(** ** The matcher finds only matches of the pattern *)

Section MatcherFacts.

Context {R : Type}.

Lemma passes_advance cur chunk tail :
  re.rest cur = chunk +:+ tail →
  passes cur chunk (re.advance cur (last_char (re.before cur) chunk) tail).
Proof. intros H. by repeat split. Qed.

Lemma max_repeat_sound set text :
  ∀ min prev (k : option ascii → string → option R) r,
    re.max_repeat set min prev text k = Some r →
    ∃ chunk tail, text = chunk +:+ tail ∧ (min ≤ String.length chunk)%nat ∧
                  every set chunk = true ∧ k (last_char prev chunk) tail = Some r.
Proof.
  induction text as [|c text IH]; intros min prev k r H; simpl in H.
  - destruct min; [|done]. by exists EmptyString, EmptyString.
  - assert (Hstop : (match min with O => k prev (String c text) | S _ => None end) = Some r →
                    ∃ chunk tail, String c text = chunk +:+ tail ∧
                      (min ≤ String.length chunk)%nat ∧ every set chunk = true ∧
                      k (last_char prev chunk) tail = Some r).
    { destruct min; [|done]. intros Hk. by exists EmptyString, (String c text). }
    destruct (set c) eqn:Hc; [|by apply Hstop].
    destruct (re.max_repeat set (pred min) (Some c) text k) as [r'|] eqn:Hrec;
      [|by apply Hstop].
    injection H as ->.
    destruct (IH _ _ _ _ Hrec) as (chunk & tail & -> & Hlen & Hall & Hk).
    exists (String c chunk), tail. simpl. rewrite Hc, Hall.
    repeat split; [lia|done].
Qed.

Lemma min_repeat_sound set text :
  ∀ min prev (k : option ascii → string → option R) r,
    re.min_repeat set min prev text k = Some r →
    ∃ chunk tail, text = chunk +:+ tail ∧ (min ≤ String.length chunk)%nat ∧
                  every set chunk = true ∧ k (last_char prev chunk) tail = Some r.
Proof.
  induction text as [|c text IH]; intros min prev k r H; simpl in H.
  - destruct min; [|done].
    destruct (k prev EmptyString) eqn:Hk; [|done].
    exists EmptyString, EmptyString. by rewrite <- H.
  - destruct (match min with O => k prev (String c text) | S _ => None end) as [r'|] eqn:Hk.
    + injection H as ->. destruct min; [|done].
      by exists EmptyString, (String c text).
    + destruct (set c) eqn:Hc; [|done].
      destruct (IH _ _ _ _ H) as (chunk & tail & -> & Hlen & Hall & Hk').
      exists (String c chunk), tail. simpl. rewrite Hc, Hall.
      repeat split; [lia|done].
Qed.

Lemma strip_prefix_sound g :
  ∀ prev text prev' tail,
    re.strip_prefix g prev text = Some (prev', tail) →
    text = g +:+ tail ∧ prev' = last_char prev g.
Proof.
  induction g as [|c g IH]; intros prev text prev' tail H; simpl in H.
  - by injection H as -> ->.
  - destruct text as [|c' text]; [done|].
    case_bool_decide as Hc; [|done]. subst c'.
    destruct (IH _ _ _ _ H) as [-> ->]. done.
Qed.

Lemma match_at_sound p :
  ∀ cur (k : re.cursor → option R) r,
    re.match_at p cur k = Some r → ∃ stop, spans p cur stop ∧ k stop = Some r.
Proof.
  induction p as [c|set| | |min set|min set|n q IH|n|p1 IH1 p2 IH2|p1 IH1 p2 IH2];
    intros cur k r H; simpl in H.
  - destruct (re.rest cur) as [|c' tail] eqn:Hrest; [done|].
    case_bool_decide as Hc; [|done]. subst c'.
    eexists. split; [|exact H]. by apply (passes_advance cur (String c EmptyString)).
  - destruct (re.rest cur) as [|c' tail] eqn:Hrest; [done|].
    destruct (set c') eqn:Hc; [|done].
    eexists. split; [|exact H]. exists c'. split; [done|].
    by apply (passes_advance cur (String c' EmptyString)).
  - destruct (re.at_beginning_line cur) eqn:Hb; [|done]. by exists cur.
  - destruct (re.at_end_line cur) eqn:Hb; [|done]. by exists cur.
  - apply max_repeat_sound in H as (chunk & tail & Hrest & Hlen & Hall & Hk).
    eexists. split; [|exact Hk]. exists chunk. by repeat split.
  - apply min_repeat_sound in H as (chunk & tail & Hrest & Hlen & Hall & Hk).
    eexists. split; [|exact Hk]. exists chunk. by repeat split.
  - apply IH in H as (inner & Hq & Hk).
    eexists. split; [|exact Hk]. by exists inner.
  - destruct (re.groups cur !! n) as [g|] eqn:Hg; [|done].
    destruct (re.strip_prefix g (re.before cur) (re.rest cur)) as [[prev tail]|] eqn:Hs;
      [|done].
    apply strip_prefix_sound in Hs as [Hrest ->].
    eexists. split; [|exact H]. exists g. by repeat split.
  - apply IH1 in H as (mid & H1 & H). apply IH2 in H as (stop & H2 & Hk).
    exists stop. split; [by exists mid|done].
  - destruct (re.match_at p1 cur k) as [r'|] eqn:H1.
    + injection H as ->. apply IH1 in H1 as (stop & Hs & Hk).
      exists stop. split; [by left|done].
    + apply IH2 in H as (stop & Hs & Hk). exists stop. split; [by right|done].
Qed.

End MatcherFacts.

Lemma match_here_sound p prev text m :
  re.match_here p prev text = Some m →
  ∃ stop, spans p {| re.before := prev; re.rest := text; re.groups := ∅ |} stop ∧
          re.matched_groups m = re.groups stop.
Proof.
  unfold re.match_here. intros H.
  apply match_at_sound in H as (stop & Hs & Hk).
  exists stop. split; [done|]. by injection Hk as <-.
Qed.

(** Every match object of a scan comes from an attempt at some position. *)
Lemma scan_sound p text :
  ∀ prev skip m, m ∈ re.scan p prev text skip →
                 ∃ prev' text', re.match_here p prev' text' = Some m.
Proof.
  induction text as [|c text IH]; intros prev skip m Hm; simpl in Hm.
  - destruct skip; [|by apply elem_of_nil in Hm].
    destruct (re.match_here p prev EmptyString) as [m'|] eqn:Hh;
      [|by apply elem_of_nil in Hm].
    apply list_elem_of_singleton in Hm as ->. eauto.
  - destruct skip as [|skip]; [|by apply IH in Hm].
    destruct (re.match_here p prev (String c text)) as [m'|] eqn:Hh; [|by apply IH in Hm].
    apply elem_of_cons in Hm as [->|Hm]; [eauto|by apply IH in Hm].
Qed.

(** ** The dist-file parser *)

Section ParserFacts.

Import DistFileDocument.

(** Assigning the matches in order leaves, for a key, the value of its
    last match. *)
Lemma record_matches_last (later : list re.MatchObject) :
  ∀ (installer_script : gmap string pyobj) key value,
    installer_script !! key = Some value →
    (∀ j, j ∈ later → re.group j 1 ≠ PyStr key) →
    foldl record_match installer_script later !! key = Some value.
Proof.
  induction later as [|j later IH]; intros d key value Hd Hlater; [done|].
  simpl. apply IH.
  - unfold record_match.
    destruct (truthy (re.group j 1)); [|done].
    destruct (re.group j 1) as [|key'] eqn:Hj; [done|].
    rewrite lookup_insert_ne; [done|].
    intros ->. apply (Hlater j); [left|done].
  - intros j' Hj'. apply Hlater. by right.
Qed.

Lemma parse_last_match istr earlier i later key :
  re.finditer kv_split istr = (earlier ++ i :: later)%list →
  re.group i 1 = PyStr key → key ≠ EmptyString →
  (∀ j, j ∈ later → re.group j 1 ≠ PyStr key) →
  _ParseInstallerScriptString istr !! key = Some (re.group i 3).
Proof.
  intros Hm Hi Hkey Hlater. unfold _ParseInstallerScriptString.
  rewrite Hm, foldl_app. simpl. apply record_matches_last; [|done].
  unfold record_match at 1. rewrite Hi. simpl.
  rewrite bool_decide_eq_false_2 by done. simpl.
  by rewrite lookup_insert_eq.
Qed.

End ParserFacts.

Example two_statements_parsed :
  DistFileDocument._ParseInstallerScriptString Samples.two_statements
  = {[ "SU_TITLE" := PyStr "Foo"; "SU_VERS" := PyStr "Bar" ]}.
Proof. vm_compute. reflexivity. Qed.

Section KvSplitFacts.
Import DistFileDocument.

Lemma length_append (a b : string) :
  String.length (a +:+ b) = (String.length a + String.length b)%nat.
Proof. induction a as [|c a IH]; simpl; [done|by rewrite IH]. Qed.

Lemma substring_append (a b : string) : substring 0 (String.length a) (a +:+ b) = a.
Proof.
  induction a as [|c a IH]; simpl; [by destruct b|by rewrite IH].
Qed.

Lemma consumed_passes cur chunk stop : passes cur chunk stop → re.consumed cur stop = chunk.
Proof.
  intros (Hrest & _ & _). unfold re.consumed. rewrite Hrest, length_append.
  replace (String.length chunk + String.length (re.rest stop) - String.length (re.rest stop))%nat
    with (String.length chunk) by lia.
  apply substring_append.
Qed.

Lemma kv_split_groups prev text m :
  re.match_here kv_split prev text = Some m →
  re.group m 1 = PyNone ∨
  ∃ key value, key ≠ EmptyString ∧ re.group m 1 = PyStr key ∧ re.group m 3 = PyStr value.
Proof.
  intros H. apply match_here_sound in H as (stop & Hs & Hg).
  unfold re.group. rewrite Hg. clear Hg m.
  simpl in Hs. destruct Hs as [Hs|Hs].
  - left.
    repeat match goal with
    | H : ∃ _, _ |- _ => destruct H as [? H]
    | H : _ ∧ _ |- _ => destruct H as [? ?]
    end.
    repeat match goal with
    | H : passes _ _ _ |- _ => apply proj2, proj2 in H
    end.
    subst. simpl in *.
    replace (re.groups x2) with (∅ : gmap nat string) by congruence.
    done.
  - right.
    repeat match goal with
    | H : ∃ _, _ |- _ => destruct H as [? H]
    | H : _ ∧ _ |- _ => destruct H as [? ?]
    end.
    match goal with
    | Hlen : (1 ≤ String.length ?key)%nat, Hp : passes _ ?key _ |- _ =>
        pose proof (consumed_passes _ _ _ Hp) as Hkey;
        assert (key ≠ EmptyString) by (intros ->; simpl in Hlen; lia)
    end.
    repeat match goal with
    | H : passes _ _ _ |- _ => apply proj2, proj2 in H
    end.
    subst. simpl in *.
    repeat match goal with
    | H : re.groups ?a = _ |- context [re.groups ?a] => rewrite H
    end.
    rewrite lookup_insert_eq, !lookup_insert_ne, lookup_insert_eq by done.
    eauto.
Qed.

(** A match of [kv_split] either is a comment line, with no group set,
    or carries a non-empty key in group 1 and a value in group 3. *)
Lemma finditer_kv_split_groups istr m :
  m ∈ re.finditer kv_split istr →
  re.group m 1 = PyNone ∨
  ∃ key value, key ≠ EmptyString ∧ re.group m 1 = PyStr key ∧ re.group m 3 = PyStr value.
Proof.
  intros Hm. apply scan_sound in Hm as (prev & text & Hm).
  by apply kv_split_groups in Hm.
Qed.

End KvSplitFacts.

(** C7: the text with the statement for SU_TITLE, value Foo in double
    quotes, on one line and the statement for SU_VERS, value Bar in single
    quotes, on the next parses to exactly the mapping of SU_TITLE to Foo
    and SU_VERS to Bar; the text made of the one malformed line with key X
    and no value parses to the empty mapping, and loading a document that
    holds nothing else returns; and of several matches with the same key,
    the last one in the text gives the value of the key. *)
Theorem installer_script_parsing :
  DistFileDocument._ParseInstallerScriptString Samples.two_statements
  = {[ "SU_TITLE" := PyStr "Foo"; "SU_VERS" := PyStr "Bar" ]} ∧
  DistFileDocument._ParseInstallerScriptString Samples.malformed_line = ∅ ∧
  DistFileDocument.LoadDocument DistFileDocument.__init__
    (Return Samples.dist_with_malformed_line)
  = Return {| DistFileDocument._installer_script := ∅ |} ∧
  ∀ istr earlier i later key,
    re.finditer DistFileDocument.kv_split istr = (earlier ++ i :: later)%list →
    re.group i 1 = PyStr key →
    (∀ j, j ∈ later → re.group j 1 ≠ PyStr key) →
    ∃ value, re.group i 3 = PyStr value ∧
             DistFileDocument._ParseInstallerScriptString istr !! key = Some (PyStr value).
Proof.
  split; [vm_compute; reflexivity|].
  split; [vm_compute; reflexivity|].
  split; [vm_compute; reflexivity|].
  intros istr earlier i later key Hm Hi Hlater.
  assert (Hin : i ∈ re.finditer DistFileDocument.kv_split istr).
  { rewrite Hm. apply elem_of_app. right. left. }
  apply finditer_kv_split_groups in Hin as [Hnone|(key' & value & Hkey & H1 & H3)];
    [congruence|].
  exists value. split; [done|].
  rewrite <- H3. rewrite Hi in H1. injection H1 as <-.
  by apply (parse_last_match istr earlier i later).
Qed.

Lemma installer_script_parsing_witness :
  ∃ value, DistFileDocument._ParseInstallerScriptString Samples.repeated_key !! "SU_VERS"
           = Some (PyStr value).
Proof.
  destruct installer_script_parsing as (_ & _ & _ & Hlast).
  pose (ms := re.finditer DistFileDocument.kv_split Samples.repeated_key).
  destruct (Hlast Samples.repeated_key (take 2 ms)
              (default (re.Match EmptyString ∅) (ms !! 2%nat)) [] "SU_VERS")
    as (value & _ & Hvalue).
  - vm_compute. reflexivity.
  - vm_compute. reflexivity.
  - intros j Hj. by apply elem_of_nil in Hj.
  - exists value. exact Hvalue.
Defined.

Example repeated_key_parsed :
  DistFileDocument._ParseInstallerScriptString Samples.repeated_key
  = {[ "SU_VERS" := PyStr "1.1" ]}.
Proof. vm_compute. reflexivity. Qed.

Section LoadDocumentFacts.
Import DistFileDocument.

Lemma module_does_not_bind_xml : load_global "xml" = Raise (NameError "xml").
Proof. vm_compute. reflexivity. Qed.

(** A document without a 'strings' element is rejected as the docstring
    says. *)
Lemma missing_strings_rejected self p :
  minidom.getElementsByTagName p "strings" = [] →
  LoadDocument self (Return p) = Raise (DocumentFormatError EmptyString).
Proof.
  intros Hs. unfold LoadDocument. simpl. rewrite Hs.
  by destruct (minidom.getElementsByTagName p "localization").
Qed.

Lemma missing_localization_rejected self p :
  minidom.getElementsByTagName p "localization" = [] →
  LoadDocument self (Return p) = Raise (DocumentFormatError EmptyString).
Proof. intros Hl. unfold LoadDocument. simpl. by rewrite Hl. Qed.

End LoadDocumentFacts.

(** C2: a document that is not well-formed makes [minidom.parseString]
    raise [ExpatError]; the handler written to turn it into
    [DocumentFormatError] names [xml.parsers.expat.ExpatError], and [xml]
    is not bound in the module, so [LoadDocument] raises [NameError]. *)
Theorem malformed_document_raises_NameError self msg :
  DistFileDocument.LoadDocument self (Raise (ExpatError msg)) = Raise (NameError "xml") ∧
  ∀ text, DistFileDocument.LoadDocument self (Raise (ExpatError msg))
          ≠ Raise (DocumentFormatError text).
Proof.
  assert (H : DistFileDocument.LoadDocument self (Raise (ExpatError msg))
              = Raise (NameError "xml")).
  { unfold DistFileDocument.LoadDocument.
    rewrite module_does_not_bind_xml. reflexivity. }
  split; [exact H|]. intros text. rewrite H. discriminate.
Qed.

(** C10: [LoadDocument] asks for a 'localization' element: a document with
    a 'strings' element and no 'localization' element is rejected with
    [DocumentFormatError]; and when a 'localization' element is there, the
    outcome is read off the first 'strings' element alone. *)
Theorem localization_element_required self p :
  (minidom.getElementsByTagName p "strings" ≠ [] →
   minidom.getElementsByTagName p "localization" = [] →
   DistFileDocument.LoadDocument self (Return p) = Raise (DocumentFormatError EmptyString)) ∧
  (minidom.getElementsByTagName p "localization" ≠ [] →
   DistFileDocument.LoadDocument self (Return p) =
     match minidom.getElementsByTagName p "strings" with
     | [] => Raise (DocumentFormatError EmptyString)
     | s :: _ =>
         cdata ← str_join EmptyString (map minidom.nodeValue (minidom.childNodes s));
         Return {| DistFileDocument._installer_script :=
                     DistFileDocument._ParseInstallerScriptString cdata |}
     end).
Proof.
  split.
  - intros _. apply missing_localization_rejected.
  - intros Hl. unfold DistFileDocument.LoadDocument. simpl.
    destruct (minidom.getElementsByTagName p "localization") as [|l ls]; [done|].
    simpl. destruct (minidom.getElementsByTagName p "strings") as [|s ss]; [done|].
    simpl. destruct (str_join _ _) as [cdata|e] eqn:Hj; simpl; [done|].
    destruct e; try done.
    exfalso. clear -Hj. revert Hj.
    generalize (map minidom.nodeValue (minidom.childNodes s)).
    induction l as [|[|t] l IH]; simpl; [done..|].
    destruct l; [done|].
    destruct (str_join EmptyString (_ :: _)); [done|]. simpl. exact IH.
Qed.

Lemma localization_element_required_witness :
  DistFileDocument.LoadDocument DistFileDocument.__init__
    (Return Samples.dist_without_localization)
  = Raise (DocumentFormatError EmptyString).
Proof.
  apply (localization_element_required DistFileDocument.__init__
           Samples.dist_without_localization).
  - vm_compute. discriminate.
  - vm_compute. reflexivity.
Defined.

Example dist_document_loaded :
  DistFileDocument.LoadDocument DistFileDocument.__init__ (Return Samples.dist_document)
  = Return {| DistFileDocument._installer_script :=
                {[ "SU_TITLE" := PyStr "Foo"; "SU_VERS" := PyStr "Bar" ]} |}.
Proof. vm_compute. reflexivity. Qed.

(** ** The catalog generator *)

Section FilterFacts.

Variable approved_product_ids : gmap string bool.

Lemma remove_unapproved_spec product_ids :
  ∀ (products : gmap string plist_value) (document : ApplePlist),
    NoDup product_ids →
    (∀ k, k ∈ product_ids → is_Some (products !! k)) →
    document !! "Products" = Some (PlistDict products) →
    ∃ kept : gmap string plist_value,
      remove_unapproved approved_product_ids product_ids document
      = Return (<["Products" := PlistDict kept]> document) ∧
      ∀ k, kept !! k =
           if decide (k ∈ product_ids ∧ approved_product_ids !! k = None)
           then None else products !! k.
Proof.
  induction product_ids as [|k0 ids IH]; intros products document Hnd Hin Hp.
  - exists products. split.
    + simpl. by rewrite insert_id.
    + intros k. case_decide as Hk; [|done]. destruct Hk as [Hk _].
      by apply elem_of_nil in Hk.
  - apply NoDup_cons in Hnd as [Hk0 Hnd]. simpl.
    destruct (approved_product_ids !! k0) as [b|] eqn:Ha; simpl.
    + destruct (IH products document Hnd) as (kept & Hrun & Hkept); [|done|].
      { intros k Hk. apply Hin. by right. }
      exists kept. split; [done|]. intros k. rewrite Hkept.
      apply decide_ext. rewrite elem_of_cons.
      split; [tauto|]. intros [[->|?] ?]; [congruence|tauto].
    + unfold del_product. rewrite Hp.
      destruct (Hin k0) as [v Hv]; [by left|]. rewrite Hv. simpl.
      destruct (IH (delete k0 products)
                   (<["Products" := PlistDict (delete k0 products)]> document) Hnd)
        as (kept & Hrun & Hkept).
      { intros k Hk. rewrite lookup_delete_ne; [apply Hin; by right|].
        intros ->. done. }
      { by rewrite lookup_insert_eq. }
      exists kept. split; [by rewrite Hrun, insert_insert_eq|].
      intros k. rewrite Hkept.
      destruct (decide (k = k0)) as [->|Hne].
      * rewrite lookup_delete_eq.
        rewrite (decide_True (P := k0 ∈ k0 :: ids ∧ _)) by (split; [left|done]).
        by case_decide.
      * rewrite lookup_delete_ne by done.
        apply decide_ext. rewrite elem_of_cons. tauto.
Qed.

(** What the filtering step returns. *)
Lemma filter_catalog_spec (document : ApplePlist) :
  is_catalog document →
  ∃ filtered : ApplePlist,
    filter_catalog approved_product_ids document = Return filtered ∧
    (∀ key, key ≠ "Products" → filtered !! key = document !! key) ∧
    match document !! "Products" with
    | Some (PlistDict products) =>
        ∃ kept : gmap string plist_value,
          filtered !! "Products" = Some (PlistDict kept) ∧
          ∀ k, kept !! k = if decide (is_Some (approved_product_ids !! k))
                           then products !! k else None
    | _ => filtered !! "Products" = None
    end.
Proof.
  unfold is_catalog, filter_catalog, product_keys. intros Hc.
  destruct (document !! "Products") as [[| | | |products]|] eqn:Hp; try done; simpl.
  - destruct (remove_unapproved_spec (map fst (map_to_list products)) products document)
      as (kept & Hrun & Hkept); [apply NoDup_fst_map_to_list| |done|].
    { intros k [[k' v] [-> Hkv%elem_of_map_to_list]]%list_elem_of_fmap. eauto. }
    exists (<["Products" := PlistDict kept]> document). split; [done|]. split.
    + intros key Hkey. by rewrite lookup_insert_ne.
    + exists kept. split; [by rewrite lookup_insert_eq|].
      intros k. rewrite Hkept.
      destruct (products !! k) as [v|] eqn:Hk; [|by repeat case_decide].
      assert (k ∈ map fst (map_to_list products)).
      { apply list_elem_of_fmap. exists (k, v). split; [done|].
        by apply elem_of_map_to_list. }
      destruct (approved_product_ids !! k) as [b|] eqn:Ha.
      * rewrite decide_False by (intros [_ ?]; done).
        rewrite decide_True by eauto. done.
      * rewrite decide_True by done.
        rewrite decide_False by (intros [? ?]; done). done.
  - rewrite map_to_list_empty. simpl. exists document. by rewrite Hp.
Qed.

End FilterFacts.

(** C5: the filtering step of [GenerateAppleSUSCatalog] returns, for every
    catalog and every set of approved identifiers, a document whose product
    identifiers are exactly those of the catalog that are approved, whose
    remaining products are the catalog's own entries, and whose content
    outside the product list is the catalog's. *)
Theorem filtering_keeps_exactly_approved_products
    (approved_product_ids : gmap string bool) (master : ApplePlist) :
  is_catalog master →
  ∃ filtered : ApplePlist,
    filter_catalog approved_product_ids master = Return filtered ∧
    product_ids filtered = product_ids master ∩ dom approved_product_ids ∧
    (∀ key, key ≠ "Products" → filtered !! key = master !! key) ∧
    (∀ products kept : gmap string plist_value,
        master !! "Products" = Some (PlistDict products) →
        filtered !! "Products" = Some (PlistDict kept) →
        kept ⊆ products).
Proof.
  intros Hc.
  destruct (filter_catalog_spec approved_product_ids master Hc)
    as (filtered & Hrun & Hother & Hproducts).
  exists filtered. split; [done|]. split; [|split; [done|]].
  - unfold product_ids at 1 2.
    destruct (master !! "Products") as [[| | | |products]|] eqn:Hp;
      try (rewrite Hproducts; symmetry; apply (left_absorb_L _ _)).
    destruct Hproducts as (kept & -> & Hkept).
    apply set_eq. intros k.
    rewrite elem_of_intersection, !elem_of_dom, Hkept.
    case_decide; [tauto|]. split; [by intros [? ?]|tauto].
  - intros products kept Hp Hk. rewrite Hp in Hproducts.
    destruct Hproducts as (kept' & Hk' & Hkept). rewrite Hk in Hk'.
    injection Hk' as <-.
    apply map_subseteq_spec. intros k v. rewrite Hkept. by case_decide.
Qed.

Lemma filtering_keeps_exactly_approved_products_witness :
  ∃ filtered : ApplePlist,
    filter_catalog Samples.approvals Samples.master_catalog = Return filtered ∧
    product_ids filtered = product_ids Samples.master_catalog ∩ dom Samples.approvals.
Proof.
  destruct (filtering_keeps_exactly_approved_products
              Samples.approvals Samples.master_catalog)
    as (filtered & Hrun & Hids & _).
  - vm_compute. exact I.
  - exists filtered. split; [exact Hrun | exact Hids].
Defined.

Example master_catalog_filtered :
  filter_catalog Samples.approvals Samples.master_catalog
  = Return {[ "CatalogVersion" := PlistInteger 2;
              "IndexDate" := PlistString "2023-06-01T00:00:00Z";
              "Products" := PlistDict {[ "041-9392" := PlistDict ∅ ]} ]}.
Proof. vm_compute. reflexivity. Qed.

Section GeneratorFacts.

Variable now_str : nat → string.

(** Loops: when every turn returns, keeps [Inv], moves the state up in
    [Le] and leaves [Done] for its item, the loop returns with [Done]
    for every item. *)
Lemma for_each_returns {A S : Type} (Inv : S → Prop) (Le : S → S → Prop)
    (Done : A → S → Prop) (body : A → S → result S) (items : list A) :
  (∀ s, Le s s) → (∀ s1 s2 s3, Le s1 s2 → Le s2 s3 → Le s1 s3) →
  (∀ x s s', Le s s' → Done x s → Done x s') →
  (∀ x s, x ∈ items → Inv s →
          ∃ s', body x s = Return s' ∧ Inv s' ∧ Done x s' ∧ Le s s') →
  ∀ s, Inv s →
       ∃ s', for_each items body s = Return s' ∧ Inv s' ∧
             (∀ x, x ∈ items → Done x s') ∧ Le s s'.
Proof.
  intros Hrefl Htrans Hmono.
  induction items as [|x items IH]; intros Hbody s Hs; simpl.
  - exists s. repeat split; [done| |done]. intros x Hx. by apply elem_of_nil in Hx.
  - destruct (Hbody x s) as (s1 & -> & Hs1 & Hx & Hle1); [by left|done|]. simpl.
    destruct (IH (λ y t Hy, Hbody y t (list_elem_of_further _ _ _ Hy)) s1 Hs1)
      as (s' & Hrun & Hs' & Hdone & Hle).
    exists s'. repeat split; [done|done| |by eauto].
    intros y [->|Hy]%elem_of_cons; [by eapply Hmono|by apply Hdone].
Qed.

Lemma is_catalog_filtered approved document filtered :
  is_catalog document → filter_catalog approved document = Return filtered →
  is_catalog filtered.
Proof.
  intros Hc Hrun.
  destruct (filter_catalog_spec approved document Hc) as (f & Hf & _ & Hp).
  rewrite Hrun in Hf. injection Hf as <-. unfold is_catalog in *.
  destruct (document !! "Products") as [[| | | |products]|]; try done.
  - by destruct Hp as (kept & -> & _).
  - by rewrite Hp.
Qed.

(** One turn without delay. *)
Lemma generate_turn track os_version gae :
  os_version ∈ OS_VERSIONS → untouched_catalogs_loaded gae →
  ∃ gae', generate_or_defer now_str 0 track os_version gae = Return gae' ∧
          untouched_catalogs_loaded gae' ∧
          catalog_served track os_version gae' ∧
          ∀ t os, catalog_served t os gae → catalog_served t os gae'.
Proof.
  intros Hos Hready. destruct (Hready os_version Hos) as (document & Hdoc & Hc).
  unfold generate_or_defer, GenerateAppleSUSCatalog. simpl. rewrite Hdoc. simpl.
  destruct (filter_catalog_spec
              (foldl (λ approved product, <[product_id product := true]> approved) ∅
                 (filter (λ product, track ∈ tracks product) (AppleSUSProduct_all gae)))
              document Hc) as (filtered & Hrun & _).
  rewrite Hrun. simpl. eexists. split; [done|].
  pose proof (is_catalog_filtered _ _ _ Hc Hrun) as Hcf.
  split; [|split].
  - intros os Hin. destruct (Hready os Hin) as (d & Hd & Hdc). simpl.
    destruct (decide (os_version +:+ "_" +:+ track = os +:+ "_untouched")) as [->|Hne1].
    { rewrite lookup_insert_eq. eauto. }
    rewrite lookup_insert_ne by done.
    destruct (decide ("backup_" +:+ os_version +:+ "_" +:+ track +:+ "_"
                      +:+ now_str (utcnow_reads gae) = os +:+ "_untouched")) as [->|Hne2].
    { rewrite lookup_insert_eq. eauto. }
    rewrite lookup_insert_ne by done. eauto.
  - unfold catalog_served. simpl. rewrite lookup_insert_eq. eauto.
  - unfold catalog_served. simpl. intros t os Hserved.
    rewrite !lookup_insert. repeat case_decide; eauto.
Qed.

(** One turn with a delay. *)
Lemma defer_turn delay track os_version gae :
  delay ≠ 0 →
  ∃ gae', generate_or_defer now_str delay track os_version gae = Return gae' ∧
          deferral_pending now_str track os_version gae' ∧
          ∀ t os, deferral_pending now_str t os gae → deferral_pending now_str t os gae'.
Proof.
  intros Hdelay. unfold generate_or_defer, defer.
  rewrite bool_decide_eq_false_2 by done. simpl.
  case_bool_decide as Hin; simpl.
  - eexists. split; [done|]. split; [by exists (utcnow_reads gae)|done].
  - eexists. split; [done|]. unfold deferral_pending. simpl. split.
    + exists (utcnow_reads gae). rewrite map_app. apply elem_of_app. right. by left.
    + intros t os [n Hn]. exists n. rewrite map_app. apply elem_of_app. by left.
Qed.

(** The tracks the loops run over, once the arguments are accepted. *)
Lemma selected_tracks_run track tracks selected delay gae :
  (track_given track = false ∧ tracks_given tracks = false ∧ selected = common.TRACKS) ∨
  (tracks_given tracks = false ∧
   ∃ t, track = Some t ∧ t ≠ EmptyString ∧ selected = [t]) ∨
  (track_given track = false ∧ tracks_given tracks = true ∧ tracks = Some selected) →
  GenerateAppleSUSCatalogs now_str track tracks delay gae
  = for_each selected (λ track,
      for_each OS_VERSIONS (λ os_version,
        generate_or_defer now_str delay track os_version)) gae.
Proof.
  unfold GenerateAppleSUSCatalogs.
  intros [(-> & -> & ->)|[(-> & t & -> & Ht & ->)|(-> & -> & ->)]]; simpl; [done| |done].
  by rewrite bool_decide_eq_false_2.
Qed.

Lemma deferred_run selected delay gae :
  delay ≠ 0 →
  ∃ gae', for_each selected (λ track,
            for_each OS_VERSIONS (λ os_version,
              generate_or_defer now_str delay track os_version)) gae = Return gae' ∧
          ∀ t os, t ∈ selected → os ∈ OS_VERSIONS → deferral_pending now_str t os gae'.
Proof.
  intros Hdelay.
  pose (Le := λ s s' : AppEngine,
          ∀ t os, deferral_pending now_str t os s → deferral_pending now_str t os s').
  destruct (for_each_returns (λ _, True) Le
              (λ t s, ∀ os, os ∈ OS_VERSIONS → deferral_pending now_str t os s)
              (λ track, for_each OS_VERSIONS (λ os_version,
                 generate_or_defer now_str delay track os_version)) selected)
    with (s := gae) as (gae' & Hrun & _ & Hdone & _); unfold Le; eauto.
  intros t s _ _.
  destruct (for_each_returns (λ _, True) Le
              (λ os s, deferral_pending now_str t os s)
              (λ os_version, generate_or_defer now_str delay t os_version) OS_VERSIONS)
    with (s := s) as (s' & Hrun & _ & Hdone & Hle); unfold Le; eauto.
  intros os s0 _ _.
  destruct (defer_turn delay t os s0 Hdelay) as (s1 & Hturn & Hpending & Hkeep).
  eauto 10.
Qed.

Lemma immediate_run selected gae :
  untouched_catalogs_loaded gae →
  ∃ gae', for_each selected (λ track,
            for_each OS_VERSIONS (λ os_version,
              generate_or_defer now_str 0 track os_version)) gae = Return gae' ∧
          ∀ t os, t ∈ selected → os ∈ OS_VERSIONS → catalog_served t os gae'.
Proof.
  intros Hready.
  pose (Le := λ s s' : AppEngine,
          ∀ t os, catalog_served t os s → catalog_served t os s').
  destruct (for_each_returns untouched_catalogs_loaded Le
              (λ t s, ∀ os, os ∈ OS_VERSIONS → catalog_served t os s)
              (λ track, for_each OS_VERSIONS (λ os_version,
                 generate_or_defer now_str 0 track os_version)) selected)
    with (s := gae) as (gae' & Hrun & _ & Hdone & _); unfold Le; eauto.
  intros t s _ Hs.
  destruct (for_each_returns untouched_catalogs_loaded Le
              (λ os s, catalog_served t os s)
              (λ os_version, generate_or_defer now_str 0 t os_version) OS_VERSIONS)
    with (s := s) as (s' & Hrun & Hs' & Hdone & Hle); unfold Le; eauto.
  intros os s0 Hos Hs0.
  destruct (generate_turn t os s0 Hos Hs0) as (s1 & Hturn & Hready1 & Hserved & Hkeep).
  eauto 10.
Qed.

End GeneratorFacts.

(** C8, as stated, fails: with [track] supplied and [tracks] supplied as an
    empty list, no error is raised and the catalogs of the one track are
    generated. *)
Lemma both_supplied_not_always_rejected :
  (∃ gae', GenerateAppleSUSCatalogs Samples.clock (Some "stable") (Some []) 0
             Samples.services = Return gae') ∧
  ¬ ∃ msg, GenerateAppleSUSCatalogs Samples.clock (Some "stable") (Some []) 0
             Samples.services = Raise (ValueError msg).
Proof.
  assert (H : ∃ gae', GenerateAppleSUSCatalogs Samples.clock (Some "stable") (Some []) 0
                        Samples.services = Return gae')
    by (eexists; vm_compute; reflexivity).
  split; [exact H|]. destruct H as [gae' H]. intros [msg Hmsg].
  rewrite H in Hmsg. discriminate.
Qed.

(** C8, amended: [GenerateAppleSUSCatalogs] raises [ValueError] whenever
    [track] and [tracks] are both supplied and non-empty; when neither is, it
    runs over every track of [common.TRACKS]; and over the selected tracks
    (those, the single [track], or [tracks]) it covers every pair of a
    selected track and a supported OS version: with a delay it returns and
    a task for each pair is pending, without a delay and with the untouched
    catalogs loaded it returns and a catalog for each pair is served. *)
Theorem generation_arguments_and_coverage now_str track tracks delay gae :
  (track_given track = true → tracks_given tracks = true →
   GenerateAppleSUSCatalogs now_str track tracks delay gae
   = Raise (ValueError "only one of track and tracks is allowed")) ∧
  (∀ selected,
     (track_given track = false ∧ tracks_given tracks = false ∧
      selected = common.TRACKS) ∨
     (tracks_given tracks = false ∧
      ∃ t, track = Some t ∧ t ≠ EmptyString ∧ selected = [t]) ∨
     (track_given track = false ∧ tracks_given tracks = true ∧
      tracks = Some selected) →
     (delay ≠ 0 →
      ∃ gae', GenerateAppleSUSCatalogs now_str track tracks delay gae = Return gae' ∧
              ∀ t os, t ∈ selected → os ∈ OS_VERSIONS →
                      deferral_pending now_str t os gae') ∧
     (delay = 0 → untouched_catalogs_loaded gae →
      ∃ gae', GenerateAppleSUSCatalogs now_str track tracks delay gae = Return gae' ∧
              ∀ t os, t ∈ selected → os ∈ OS_VERSIONS → catalog_served t os gae')).
Proof.
  split.
  - intros Ht Hts. unfold GenerateAppleSUSCatalogs. by rewrite Ht, Hts.
  - intros selected Hsel. rewrite (selected_tracks_run now_str _ _ selected) by done.
    split.
    + apply deferred_run.
    + intros ->. apply immediate_run.
Qed.

Lemma services_have_untouched_catalogs : untouched_catalogs_loaded Samples.services.
Proof.
  intros os Hos. unfold OS_VERSIONS in Hos.
  repeat (apply elem_of_cons in Hos as [->|Hos]);
    [..|by apply elem_of_nil in Hos];
    (eexists; split; [vm_compute; reflexivity | vm_compute; exact I]).
Qed.

Lemma generation_arguments_and_coverage_witness :
  GenerateAppleSUSCatalogs Samples.clock (Some "stable") (Some ["stable"; "testing"]) 0
    Samples.services
  = Raise (ValueError "only one of track and tracks is allowed") ∧
  (∃ gae', GenerateAppleSUSCatalogs Samples.clock None None 0 Samples.services
           = Return gae' ∧
           ∀ t os, t ∈ common.TRACKS → os ∈ OS_VERSIONS → catalog_served t os gae') ∧
  (∃ gae', GenerateAppleSUSCatalogs Samples.clock (Some "testing") None 60 Samples.services
           = Return gae' ∧
           ∀ t os, t ∈ ["testing"] → os ∈ OS_VERSIONS →
                   deferral_pending Samples.clock t os gae').
Proof.
  split; [|split].
  - apply (generation_arguments_and_coverage Samples.clock
             (Some "stable") (Some ["stable"; "testing"]) 0 Samples.services);
      reflexivity.
  - apply (generation_arguments_and_coverage Samples.clock None None 0 Samples.services).
    + left. split; [reflexivity|]. split; reflexivity.
    + reflexivity.
    + exact services_have_untouched_catalogs.
  - apply (generation_arguments_and_coverage Samples.clock
             (Some "testing") None 60 Samples.services).
    + right. left. split; [reflexivity|]. exists "testing".
      split; [reflexivity|]. split; [discriminate|reflexivity].
    + discriminate.
Defined.

